(** * Konva.Image: a shallow embedding of [src/shapes/Image.ts]

    The file follows the TypeScript class member by member.  JavaScript
    values are a small tagged union, the attribute bag [this.attrs] and the
    platform objects are finite maps keyed by property name, and each method
    is a computation in a state-and-exception monad, so that reads, writes,
    calls on the drawing context and [try]/[catch] appear as they do in the
    source. *)

From Stdlib Require Import QArith Qcanon.
From stdpp Require Import base option numbers strings list gmap.

Open Scope string_scope.
Open Scope list_scope.

(** ** JavaScript values *)

(** Function values are defunctionalised: a function is either supplied by
    the caller (known only by an identity) or the closure that [fromURL]
    stores in [img.onload], which captures [img] and [callback]. *)
Inductive Fn : Type :=
| Host (id : nat)
| FromURL_onload (img : nat) (callback : Fn).

(** Numbers are the rationals and NaN; the tests the code performs on them
    (truthiness, [!== 1]) and storing them do not depend on rounding.  The
    infinities pass every one of these tests as any other non-zero number
    does and are not told apart. *)
Inductive JsVal : Type :=
| VUndefined
| VNull
| VBool (b : bool)
| VNum (q : Qc)
| VNaN
| VStr (s : string)
| VRef (l : nat)
| VFun (f : Fn).

(** ToBoolean: what [if (v)], [v && w] and [v || w] test. *)
Definition truthy (v : JsVal) : bool :=
  match v with
  | VUndefined | VNull => false
  | VBool b => b
  | VNum q => bool_decide (q ≠ 0%Qc)
  | VNaN => false
  | VStr s => bool_decide (s ≠ "")
  | VRef _ | VFun _ => true
  end.

(** [v === undefined] *)
Definition is_undefined (v : JsVal) : bool :=
  match v with VUndefined => true | _ => false end.

Definition num (z : Z) : JsVal := VNum (Q2Qc (inject_Z z)).

(** A plain object: property name to value; an absent key reads
    [undefined]. *)
Abbreviation Obj := (gmap string JsVal).

Definition obj_get (o : Obj) (k : string) : JsVal := default VUndefined (o !! k).

(** ** Nodes, platform, drawing context *)

(** A Konva node, reduced to what [Image.ts] touches: the attribute bag. *)
Record Node := mkNode { attrs : Obj }.

Inductive Exn : Type :=
| ValidationError (attr : string) (received : JsVal)
| DOMException (name : string).

(** What the host functions are called with. *)
Inductive Arg : Type :=
| ANode (n : Node)
| AEvent (type : string).

Inductive PEvent : Type :=
| PropSet (l : nat) (name : string) (v : JsVal)
| Invoke (id : nat) (arg : Arg).

(** The platform: image, canvas and video elements (and any other object a
    [VRef] points to) with their properties, and the log of property
    assignments on elements and of calls received by host functions, in
    program order. *)
Record Platform := mkPlatform {
  heap : gmap nat Obj;
  plog : list PEvent
}.

(** Calls a node issues on the drawing context. *)
Inductive Call : Type :=
| BeginPath
| Rect (x y w h : JsVal)
| ClosePath
| FillStrokeShape (shape : Node)
| DrawImage (params : list JsVal).

(** Modelled from the spec: the drawing-surface abstraction (Context) is not
    in [src/]; section 6 of the spec lists its five primitives.  The surface
    records the calls it receives; [drawImage] is the one primitive that may
    raise, decided by [blit_raises] on the arguments. *)
Record Context := mkContext {
  trace : list Call;
  blit_raises : list JsVal → option Exn
}.

Record State := mkState {
  this_node : Node;
  platform : Platform;
  context : Context;
  fired : list string
}.

(** ** The monad: state and exceptions *)

Inductive Outcome (S A : Type) : Type :=
| Normal (a : A) (σ : S)
| Throws (e : Exn) (σ : S).
Arguments Normal {S A} a σ.
Arguments Throws {S A} e σ.

Definition M (S A : Type) : Type := S → Outcome S A.

Definition final {S A} (o : Outcome S A) : S :=
  match o with Normal _ σ => σ | Throws _ σ => σ end.

Definition completes {S A} (o : Outcome S A) : bool :=
  match o with Normal _ _ => true | Throws _ _ => false end.

Definition result {S A} (o : Outcome S A) : option A :=
  match o with Normal a _ => Some a | Throws _ _ => None end.

#[global] Instance M_ret {S} : MRet (M S) := λ A a σ, Normal a σ.
#[global] Instance M_bind {S} : MBind (M S) := λ A B f m σ,
  match m σ with
  | Normal a σ' => f a σ'
  | Throws e σ' => Throws e σ'
  end.

Definition gets {S A} (f : S → A) : M S A := λ σ, Normal (f σ) σ.
Definition modify {S} (f : S → S) : M S unit := λ σ, Normal () (f σ).
Definition throw {S A} (e : Exn) : M S A := λ σ, Throws e σ.

(** [try { body } catch (error) { handler }] *)
Definition try_catch {S A} (body : M S A) (handler : Exn → M S A) : M S A :=
  λ σ, match body σ with
       | Normal a σ' => Normal a σ'
       | Throws e σ' => handler e σ'
       end.

(** ** State access *)

Definition set_attrs (f : Obj → Obj) (σ : State) : State :=
  mkState (mkNode (f (attrs (this_node σ)))) (platform σ) (context σ) (fired σ).

Definition set_fired (f : list string → list string) (σ : State) : State :=
  mkState (this_node σ) (platform σ) (context σ) (f (fired σ)).

Definition set_trace (f : list Call → list Call) (σ : State) : State :=
  mkState (this_node σ) (platform σ)
          (mkContext (f (trace (context σ))) (blit_raises (context σ)))
          (fired σ).

(** [this.attrs[name]] *)
Definition attr (name : string) : M State JsVal :=
  gets (λ σ, obj_get (attrs (this_node σ)) name).

(** [v.name] for a value [v]: a property of the object a reference points
    to; [undefined] on the primitives that reach it here. *)
Definition property (p : Platform) (v : JsVal) (name : string) : JsVal :=
  match v with
  | VRef l => obj_get (default ∅ (heap p !! l)) name
  | _ => VUndefined
  end.

Definition prop (v : JsVal) (name : string) : M State JsVal :=
  gets (λ σ, property (platform σ) v name).

(** A call on the context: recorded, and for [drawImage] possibly raising. *)
Definition ctx (c : Call) : M State unit :=
  λ σ, let σ' := set_trace (λ t, t ++ [c]) σ in
       match c with
       | DrawImage params =>
           match blit_raises (context σ) params with
           | Some e => Throws e σ'
           | None => Normal () σ'
           end
       | _ => Normal () σ'
       end.

(** [a && b] and [a || b] with the right operand evaluated only when the
    left one does not decide. *)
Definition and_then {S} (a b : M S JsVal) : M S JsVal :=
  x ← a; if truthy x then b else mret x.
Definition or_else {S} (a b : M S JsVal) : M S JsVal :=
  x ← a; if truthy x then mret x else b.

(** Runs [m]; if it throws, the state is the one before [m] started. *)
Definition atomically {S A} (m : M S A) : M S A :=
  λ σ, match m σ with
       | Normal a σ' => Normal a σ'
       | Throws e _ => Throws e σ
       end.

(** ** Collaborators that are not in [src/] *)

(** Modelled from the spec: [Util._capitalize], used for the attribute name
    [name+Capitalized(component)]. *)
Definition capitalize (s : string) : string :=
  match s with
  | EmptyString => EmptyString
  | String c r =>
      let n := Ascii.nat_of_ascii c in
      String (if (97 <=? n)%nat && (n <=? 122)%nat
              then Ascii.ascii_of_nat (n - 32) else c) r
  end.

(** Modelled from the spec: [Validators.getNumberValidator] is not in
    [src/]; a validator signals failure by raising an error that carries
    the attribute name and the received value.  NaN is not a valid number
    and is refused like any other value that is not one. *)
Definition getNumberValidator (val : JsVal) (name : string) : M State unit :=
  match val with
  | VNum _ => mret ()
  | _ => throw (ValidationError name val)
  end.

Module Factory.

(** Modelled from the spec: the getter that [addGetterSetter] installs
    returns the stored value, or the default when it is absent. *)
Definition getter (name : string) (def : JsVal) : M State JsVal :=
  val ← attr name;
  mret (if is_undefined val then def else val).

(** Modelled from the spec: the setter that [addGetterSetter] installs
    (a) runs the validator if there is one, (b) stores the value,
    (c) triggers a change notification on the attribute name. *)
Definition setter (name : string)
    (validator : option (JsVal → string → M State unit))
    (val : JsVal) : M State unit :=
  match validator with
  | Some check => check val name
  | None => mret ()
  end;;
  modify (set_attrs <[name := val]>);;
  modify (set_fired (λ l, l ++ [name])).

(** Modelled from the spec: the composite getter of
    [addComponentsGetterSetter] reads each [name+Capitalized(component)]
    attribute through the accessor [get] of the node type and assembles
    an object. *)
Fixpoint components_getter (get : string → M State JsVal) (name : string)
    (components : list string) : M State Obj :=
  match components with
  | [] => mret ∅
  | c :: rest =>
      v ← get (name +:+ capitalize c);
      o ← components_getter get name rest;
      mret (<[c := v]> o)
  end.

Fixpoint components_write (set : string → JsVal → M State unit)
    (name : string) (components : list string) (val : Obj) : M State unit :=
  match components with
  | [] => mret ()
  | c :: rest =>
      match val !! c with
      | Some v => set (name +:+ capitalize c) v
      | None => mret ()
      end;;
      components_write set name rest val
  end.

(** Modelled from the spec: the composite setter takes a full or partial
    object, writes each component it specifies through the validated
    setter [set] of the node type and leaves the others as they were; on
    failure nothing is written. *)
Definition components_setter (set : string → JsVal → M State unit)
    (name : string) (components : list string) (val : Obj) : M State unit :=
  atomically (components_write set name components val).

End Factory.

(** The [Shape] base class is not in [src/]; the five queries [Image.ts]
    makes on it are taken as an interface.  They are observations of the
    node (and of the scene graph it hangs in, which no operation here
    changes). *)
Class ShapeBase := {
  hasFill : Node → bool;
  hasStroke : Node → bool;
  hasShadow : Node → bool;
  getAbsoluteOpacity : Node → Qc;
  getStage : Node → JsVal
}.

Module Util.

(** Modelled from the spec: [Util.createImageElement] creates a platform
    image element: a fresh object with no property assigned yet. *)
Definition createImageElement : M Platform nat :=
  λ p, let l := fresh (dom (heap p)) in
       Normal l (mkPlatform (<[l := ∅]> (heap p)) (plog p)).

End Util.

(** [el.name = v] on a platform element. *)
Definition assign (l : nat) (name : string) (v : JsVal) : M Platform unit :=
  modify (λ p, mkPlatform (alter <[name := v]> l (heap p))
                          (plog p ++ [PropSet l name v])).

(** ** [class Image extends Shape] *)

Module Image.

(** Modelled from the spec: the [Shape]/[Node] constructor sets the
    attributes from the configuration mapping. *)
Definition new (config : Obj) : Node := mkNode config.

(** [Factory.addGetterSetter(Image, 'image')] and the four crop fields
    with default [0] and the number validator. *)
Definition image : M State JsVal := Factory.getter "image" VUndefined.
Definition cropX : M State JsVal := Factory.getter "cropX" (num 0).
Definition cropY : M State JsVal := Factory.getter "cropY" (num 0).
Definition cropWidth : M State JsVal := Factory.getter "cropWidth" (num 0).
Definition cropHeight : M State JsVal := Factory.getter "cropHeight" (num 0).

Definition setImage : JsVal → M State unit := Factory.setter "image" None.
Definition setCropX : JsVal → M State unit :=
  Factory.setter "cropX" (Some getNumberValidator).
Definition setCropY : JsVal → M State unit :=
  Factory.setter "cropY" (Some getNumberValidator).
Definition setCropWidth : JsVal → M State unit :=
  Factory.setter "cropWidth" (Some getNumberValidator).
Definition setCropHeight : JsVal → M State unit :=
  Factory.setter "cropHeight" (Some getNumberValidator).

Definition getWidth : M State JsVal :=
  image ← image;
  or_else (attr "width")
          (if truthy image then prop image "width" else mret (num 0)).

Definition getHeight : M State JsVal :=
  image ← image;
  or_else (attr "height")
          (if truthy image then prop image "height" else mret (num 0)).

(** Modelled from the spec: [width] and [height] are accessors inherited
    from the base node type; reading goes through [getWidth]/[getHeight]
    (the scene paint computes width and height "via the above"), writing
    stores the validated number. *)
Definition width : M State JsVal := getWidth.
Definition height : M State JsVal := getHeight.
Definition setWidth : JsVal → M State unit :=
  Factory.setter "width" (Some getNumberValidator).
Definition setHeight : JsVal → M State unit :=
  Factory.setter "height" (Some getNumberValidator).

(** Modelled from the spec: reading and writing an attribute by name goes
    through the accessor installed under that name on the node type, or
    through a plain one when none is installed. *)
Definition get (name : string) : M State JsVal :=
  if decide (name = "cropX") then cropX
  else if decide (name = "cropY") then cropY
  else if decide (name = "cropWidth") then cropWidth
  else if decide (name = "cropHeight") then cropHeight
  else if decide (name = "width") then width
  else if decide (name = "height") then height
  else Factory.getter name VUndefined.

Definition set (name : string) (val : JsVal) : M State unit :=
  if decide (name = "cropX") then setCropX val
  else if decide (name = "cropY") then setCropY val
  else if decide (name = "cropWidth") then setCropWidth val
  else if decide (name = "cropHeight") then setCropHeight val
  else if decide (name = "width") then setWidth val
  else if decide (name = "height") then setHeight val
  else Factory.setter name None val.

(** [Factory.addComponentsGetterSetter(Image, 'crop',
    ['x', 'y', 'width', 'height'])] *)
Definition crop : M State Obj :=
  Factory.components_getter get "crop" ["x"; "y"; "width"; "height"].
Definition setCrop : Obj → M State unit :=
  Factory.components_setter set "crop" ["x"; "y"; "width"; "height"].

Definition _hitFunc : M State unit :=
  width ← width;
  height ← height;
  ctx BeginPath;;
  ctx (Rect (num 0) (num 0) width height);;
  ctx ClosePath;;
  this ← gets this_node;
  ctx (FillStrokeShape this).

Section Shape.
Context `{ShapeBase}.

Definition this_hasFill : M State JsVal :=
  gets (λ σ, VBool (hasFill (this_node σ))).
Definition this_hasStroke : M State JsVal :=
  gets (λ σ, VBool (hasStroke (this_node σ))).
Definition this_hasShadow : M State JsVal :=
  gets (λ σ, VBool (hasShadow (this_node σ))).
Definition this_getAbsoluteOpacity : M State JsVal :=
  gets (λ σ, VNum (getAbsoluteOpacity (this_node σ))).
Definition this_getStage : M State JsVal :=
  gets (λ σ, getStage (this_node σ)).

(** [a !== 1] on a number *)
Definition not_one (a : M State JsVal) : M State JsVal :=
  v ← a;
  mret (VBool (match v with
               | VNum q => bool_decide (q ≠ 1%Qc)
               | _ => true
               end)).

Definition _useBufferCanvas : M State JsVal :=
  and_then
    (and_then (or_else this_hasShadow (not_one this_getAbsoluteOpacity))
              this_hasStroke)
    this_getStage.

Definition _sceneFunc : M State unit :=
  width ← width;
  height ← height;
  image ← image;
  params ←
    (if truthy image then
       cropWidth ← cropWidth;
       cropHeight ← cropHeight;
       if truthy cropWidth && truthy cropHeight then
         x ← cropX;
         y ← cropY;
         mret (Some [image; x; y; cropWidth; cropHeight;
                     num 0; num 0; width; height])
       else
         mret (Some [image; num 0; num 0; width; height])
     else mret None);
  paint ← or_else this_hasFill this_hasStroke;
  (if truthy paint then
     ctx BeginPath;;
     ctx (Rect (num 0) (num 0) width height);;
     ctx ClosePath;;
     this ← gets this_node;
     ctx (FillStrokeShape this)
   else mret ());;
  if truthy image then
    try_catch (ctx (DrawImage (default [] params))) (λ error, mret ())
  else mret ().

End Shape.

(** Calling a function value.  The closure stored by [fromURL] builds the
    node around [img] and passes it to [callback]; a function of the
    caller records the call. *)
Fixpoint call (f : Fn) (arg : Arg) : M Platform unit :=
  match f with
  | Host id => modify (λ p, mkPlatform (heap p) (plog p ++ [Invoke id arg]))
  | FromURL_onload img callback =>
      let image := new {[ "image" := VRef img ]} in
      call callback (ANode image)
  end.

Definition fromURL (url : JsVal) (callback : Fn) : M Platform unit :=
  img ← Util.createImageElement;
  assign img "onload" (VFun (FromURL_onload img callback));;
  assign img "crossOrigin" (VStr "Anonymous");;
  assign img "src" url.

End Image.

(** The platform delivering an event to an element: the handler stored in
    the element's [on<type>] property, if it is a function, is called. *)
Definition dispatch (l : nat) (type : string) : M Platform unit :=
  λ p, match property p (VRef l) ("on" +:+ type) with
       | VFun f => Image.call f (AEvent type) p
       | _ => Normal () p
       end.

(** The platform delivering the same event [n] times in a row. *)
Fixpoint deliver (n : nat) (l : nat) (type : string) : M Platform unit :=
  match n with
  | O => mret ()
  | S n' => dispatch l type;; deliver n' l type
  end.

(** ** Observing a run *)

(** The calls a computation issued on the context, given the state it
    started from. *)
Definition issued {A} (σ : State) (o : Outcome State A) : list Call :=
  drop (length (trace (context σ))) (trace (context (final o))).

Definition is_drawImage (c : Call) : bool :=
  match c with DrawImage _ => true | _ => false end.

Definition is_rect (c : Call) : bool :=
  match c with Rect _ _ _ _ => true | _ => false end.

(** The background path of both paint functions. *)
Definition background (this : Node) (width height : JsVal) : list Call :=
  [BeginPath; Rect (num 0) (num 0) width height; ClosePath;
   FillStrokeShape this].

(** What the platform logged during a computation. *)
Definition logged {A} (p : Platform) (o : Outcome Platform A) : list PEvent :=
  drop (length (plog p)) (plog (final o)).

(** The arguments of the blit, as [_sceneFunc] assembles them from the
    values it read. *)
Definition blit_params (w h image cw ch x y : JsVal) : list JsVal :=
  if truthy cw && truthy ch
  then [image; x; y; cw; ch; num 0; num 0; w; h]
  else [image; num 0; num 0; w; h].

(** The attributes behind the composite [crop] and its component names. *)
Definition crop_attrs : list string :=
  ["cropX"; "cropY"; "cropWidth"; "cropHeight"].
Definition crop_components : list string := ["x"; "y"; "width"; "height"].

(** The value a finished computation returned is truthy. *)
Definition returns_truthy {S} (o : Outcome S JsVal) : bool :=
  match o with Normal v _ => truthy v | Throws _ _ => false end.

(** ** Concrete nodes and surfaces used in examples *)

Module Fixtures.

(** A shape with fill, stroke and shadow at full opacity on a stage. *)
Definition opaque_shadowed : ShapeBase :=
  Build_ShapeBase (λ _, true) (λ _, true) (λ _, true) (λ _, 1%Qc)
                  (λ _, VRef 7).

(** A bare shape: no fill, no stroke, no shadow, not on a stage. *)
Definition bare : ShapeBase :=
  Build_ShapeBase (λ _, false) (λ _, false) (λ _, false) (λ _, 1%Qc)
                  (λ _, VUndefined).

Definition ready : Context := mkContext [] (λ _, None).
Definition not_ready : Context :=
  mkContext [] (λ _, Some (DOMException "InvalidStateError")).

(** One decoded 50x50 bitmap at address 1. *)
Definition bitmaps : Platform :=
  mkPlatform {[ 1%nat := {[ "width" := num 50; "height" := num 50 ]} ]} [].

Definition with_image : State :=
  mkState (Image.new {[ "image" := VRef 1 ]}) bitmaps ready [].
Definition with_image_not_ready : State :=
  mkState (Image.new {[ "image" := VRef 1 ]}) bitmaps not_ready [].
Definition cropped : State :=
  mkState (Image.new {[ "image" := VRef 1; "cropX" := num 2;
                        "cropY" := num 3; "cropWidth" := num 10;
                        "cropHeight" := num 10 ]}) bitmaps ready [].
Definition empty_node : State :=
  mkState (Image.new ∅) bitmaps ready [].

(** As [cropped], with a crop width that is NaN. *)
Definition cropped_nan_width : State :=
  mkState (Image.new {[ "image" := VRef 1; "cropX" := num 2;
                        "cropY" := num 3; "cropWidth" := VNaN;
                        "cropHeight" := num 10 ]}) bitmaps ready [].

End Fixtures.

Module LoaderFixtures.

Definition empty_platform : Platform := mkPlatform ∅ [].

(** The platform after one and after two loads were started. *)
Definition one_started : Platform :=
  final (Image.fromURL (VStr "/a.png") (Host 3) empty_platform).
Definition two_started : Platform :=
  final (Image.fromURL (VStr "/b.png") (Host 4) one_started).

End LoaderFixtures.

(** ** Running the monad *)

Ltac run :=
  repeat (progress (unfold
    Image._useBufferCanvas, Image._sceneFunc, Image._hitFunc,
    Image.getWidth, Image.getHeight, Image.width, Image.height,
    Image.image, Image.cropX, Image.cropY, Image.cropWidth, Image.cropHeight,
    Image.setCropX, Image.setCropY, Image.setCropWidth, Image.setCropHeight,
    Image.setWidth, Image.setHeight, Image.setImage,
    Image.this_hasFill, Image.this_hasStroke, Image.this_hasShadow,
    Image.this_getAbsoluteOpacity, Image.this_getStage, Image.not_one,
    Factory.getter, Factory.setter, getNumberValidator,
    and_then, or_else, try_catch, atomically, attr, prop, ctx,
    gets, modify, throw, mbind, M_bind, mret, M_ret in *; cbn in *)).

Lemma truthy_num_nonzero (q : Qc) : q ≠ 0%Qc → truthy (VNum q) = true.
Proof. intros Hq. cbn. by apply bool_decide_eq_true. Qed.

Lemma getter_undefined (v : JsVal) :
  (if is_undefined v then VUndefined else v) = v.
Proof. by destruct v. Qed.

Lemma image_run (σ : State) :
  Image.image σ = Normal (obj_get (attrs (this_node σ)) "image") σ.
Proof. run. by rewrite getter_undefined. Qed.

Lemma getWidth_run (σ : State) :
  Image.getWidth σ =
  Normal (let a := attrs (this_node σ) in
          if truthy (obj_get a "width") then obj_get a "width"
          else if truthy (obj_get a "image")
               then property (platform σ) (obj_get a "image") "width"
               else num 0) σ.
Proof.
  run. rewrite getter_undefined.
  destruct (truthy (obj_get _ "width")); [done|].
  by destruct (truthy (obj_get _ "image")).
Qed.

Lemma getHeight_run (σ : State) :
  Image.getHeight σ =
  Normal (let a := attrs (this_node σ) in
          if truthy (obj_get a "height") then obj_get a "height"
          else if truthy (obj_get a "image")
               then property (platform σ) (obj_get a "image") "height"
               else num 0) σ.
Proof.
  run. rewrite getter_undefined.
  destruct (truthy (obj_get _ "height")); [done|].
  by destruct (truthy (obj_get _ "image")).
Qed.

(** The validated setter on a number stores it and notifies. *)
Lemma number_setter_stores name (q : Qc) σ :
  Factory.setter name (Some getNumberValidator) (VNum q) σ =
  Normal () (set_fired (λ l, l ++ [name])
               (set_attrs <[name := VNum q]> σ)).
Proof. by run. Qed.

(** On anything else it throws and the state is untouched. *)
Lemma number_setter_rejects name v σ :
  (∀ q, v ≠ VNum q) →
  Factory.setter name (Some getNumberValidator) v σ =
  Throws (ValidationError name v) σ.
Proof. intros Hv. destruct v; run; try done. by destruct (Hv q). Qed.

(** Either way every other attribute, the platform and the context are as
    they were. *)
Lemma number_setter_frame name v σ :
  let σ' := final (Factory.setter name (Some getNumberValidator) v σ) in
  (∀ k, k ≠ name → attrs (this_node σ') !! k = attrs (this_node σ) !! k)
  ∧ platform σ' = platform σ ∧ context σ' = context σ.
Proof.
  destruct v; run; repeat split; try done.
  intros k Hk. by rewrite lookup_insert_ne.
Qed.

(** ** Buffer canvas *)

(** C1 (as the code has it): [_useBufferCanvas] finishes without changing
    the state and its result is truthy exactly when the node has a shadow
    OR an absolute opacity other than 1, AND has a stroke, AND is on a
    stage; a truthy result is the stage itself.  So turning the stroke or
    the stage condition off makes the result falsy, while shadow and
    opacity each suffice for the other. *)
Theorem useBufferCanvas_shadow_or_opacity `{ShapeBase} (σ : State) :
  let n := this_node σ in
  ∃ v, Image._useBufferCanvas σ = Normal v σ
       ∧ truthy v =
           (hasShadow n || bool_decide (getAbsoluteOpacity n ≠ 1%Qc))
           && hasStroke n && truthy (getStage n)
       ∧ (if truthy v then v = getStage n else True).
Proof.
  intros n. run. subst n.
  destruct (hasShadow (this_node σ)); cbn.
  - destruct (hasStroke (this_node σ)); cbn.
    + eexists; split; [done|]. split; [done|]. by destruct (truthy _).
    + by eexists.
  - destruct (bool_decide _); cbn.
    + destruct (hasStroke (this_node σ)); cbn.
      * eexists; split; [done|]. split; [done|]. by destruct (truthy _).
      * by eexists.
    + by eexists.
Qed.

(** C1 (as stated) fails: a node with a shadow and a stroke on a stage, at
    absolute opacity exactly 1, gets a truthy answer although one of the
    four conditions of the claim does not hold. *)
Lemma useBufferCanvas_not_all_four :
  ¬ (returns_truthy
       (@Image._useBufferCanvas Fixtures.opaque_shadowed Fixtures.with_image)
     = true
     ↔ (@hasShadow Fixtures.opaque_shadowed (this_node Fixtures.with_image)
        = true
        ∧ @getAbsoluteOpacity Fixtures.opaque_shadowed
            (this_node Fixtures.with_image) ≠ 1%Qc
        ∧ @hasStroke Fixtures.opaque_shadowed (this_node Fixtures.with_image)
          = true
        ∧ truthy (@getStage Fixtures.opaque_shadowed
                    (this_node Fixtures.with_image)) = true)).
Proof.
  intros [Hcode _].
  assert (Hrun : returns_truthy
            (@Image._useBufferCanvas Fixtures.opaque_shadowed
               Fixtures.with_image) = true)
    by reflexivity.
  destruct (Hcode Hrun) as (_ & Hopacity & _). by apply Hopacity.
Qed.

(** ** Size *)

(** C3: [getWidth] returns the stored width when it is truthy, otherwise
    the intrinsic width of the image source when an image is present,
    otherwise 0; [getHeight] likewise over the height; and storing a width
    (height) leaves what [getHeight] ([getWidth]) returns unchanged. *)
Theorem getWidth_getHeight_fallback (σ : State) :
  let a := attrs (this_node σ) in
  let image := obj_get a "image" in
  Image.getWidth σ =
    Normal (if truthy (obj_get a "width") then obj_get a "width"
            else if truthy image then property (platform σ) image "width"
            else num 0) σ
  ∧ Image.getHeight σ =
    Normal (if truthy (obj_get a "height") then obj_get a "height"
            else if truthy image then property (platform σ) image "height"
            else num 0) σ
  ∧ (∀ v, result (Image.getHeight (final (Image.setWidth v σ)))
          = result (Image.getHeight σ))
  ∧ (∀ v, result (Image.getWidth (final (Image.setHeight v σ)))
          = result (Image.getWidth σ)).
Proof.
  intros a image. split; [apply getWidth_run|]. split; [apply getHeight_run|].
  split; intros v.
  - destruct (number_setter_frame "width" v σ) as (Hattrs & Hplat & _).
    unfold Image.setWidth.
    remember (final (Factory.setter "width" _ v σ)) as σ' eqn:E. clear E.
    rewrite !getHeight_run. unfold result, obj_get.
    by rewrite !Hattrs, Hplat.
  - destruct (number_setter_frame "height" v σ) as (Hattrs & Hplat & _).
    unfold Image.setHeight.
    remember (final (Factory.setter "height" _ v σ)) as σ' eqn:E. clear E.
    rewrite !getWidth_run. unfold result, obj_get.
    by rewrite !Hattrs, Hplat.
Qed.

(** Property 4 of the spec, run: a 50x50 source and no explicit size give
    50 and 50; after [width(80)] the width is 80 and the height still 50. *)
Example auto_size_then_explicit_width :
  let σ := Fixtures.with_image in
  result (Image.getWidth σ) = Some (num 50)
  ∧ result (Image.getHeight σ) = Some (num 50)
  ∧ result ((Image.setWidth (num 80);; Image.getWidth) σ) = Some (num 80)
  ∧ result ((Image.setWidth (num 80);; Image.getHeight) σ) = Some (num 50).
Proof. vm_compute. done. Qed.

(** ** Scene paint *)

(** The value the generated getter of [name] with default [def] reads. *)
Lemma getter_run name def σ :
  Factory.getter name def σ =
  Normal (let v := obj_get (attrs (this_node σ)) name in
          if is_undefined v then def else v) σ.
Proof. by run. Qed.

Lemma issued_app {A} (σ : State) (o : Outcome State A) (cs : list Call) :
  trace (context (final o)) = trace (context σ) ++ cs → issued σ o = cs.
Proof. intros E. unfold issued. by rewrite E, drop_app_length. Qed.

Lemma bind_run {S A B} (m : M S A) (f : A → M S B) σ a σ' :
  m σ = Normal a σ' → (m ≫= f) σ = f a σ'.
Proof. unfold mbind, M_bind. by intros ->. Qed.

Lemma ret_bind {S A B} (a : A) (f : A → M S B) σ : (mret a ≫= f) σ = f a σ.
Proof. done. Qed.

(** The four background calls, run from any state. *)
Lemma background_run (w h : JsVal) (σ : State) :
  (ctx BeginPath;; ctx (Rect (num 0) (num 0) w h);; ctx ClosePath;;
   this ← gets this_node; ctx (FillStrokeShape this)) σ
  = Normal () (set_trace (λ t, t ++ background (this_node σ) w h) σ).
Proof.
  unfold background. run. destruct σ as [n p [t r] f]; cbn.
  unfold set_trace; cbn. by rewrite <- !app_assoc.
Qed.

(** The guarded blit: attempted, recorded, and never propagating. *)
Lemma blit_run (params : list JsVal) (σ : State) :
  try_catch (ctx (DrawImage params)) (λ error, mret ()) σ
  = Normal () (set_trace (λ t, t ++ [DrawImage params]) σ).
Proof. run. by destruct (blit_raises (context σ) params). Qed.

Lemma paint_run `{ShapeBase} (σ : State) :
  or_else Image.this_hasFill Image.this_hasStroke σ
  = Normal (VBool (hasFill (this_node σ) || hasStroke (this_node σ))) σ.
Proof. run. by destruct (hasFill (this_node σ)). Qed.

Lemma issued_set_trace {A} (σ : State) (a : A) (cs : list Call) :
  issued σ (Normal a (set_trace (λ t, t ++ cs) σ)) = cs.
Proof. apply issued_app. by destruct σ as [n p [t r] f]. Qed.

Lemma set_trace_twice (σ : State) (cs ds : list Call) :
  set_trace (λ t, t ++ ds) (set_trace (λ t, t ++ cs) σ)
  = set_trace (λ t, t ++ (cs ++ ds)) σ.
Proof. unfold set_trace; cbn. by rewrite <- app_assoc. Qed.

Section Scene.
Context `{ShapeBase}.
Variables (σ : State) (w h image cw ch x y : JsVal).
Hypothesis Hw : Image.width σ = Normal w σ.
Hypothesis Hh : Image.height σ = Normal h σ.
Hypothesis Himage : Image.image σ = Normal image σ.
Hypothesis Hcw : Image.cropWidth σ = Normal cw σ.
Hypothesis Hch : Image.cropHeight σ = Normal ch σ.
Hypothesis Hx : Image.cropX σ = Normal x σ.
Hypothesis Hy : Image.cropY σ = Normal y σ.

Lemma sceneFunc_params :
  ∀ {A} (k : option (list JsVal) → M State A),
    ((if truthy image then
        cropWidth ← Image.cropWidth;
        cropHeight ← Image.cropHeight;
        if truthy cropWidth && truthy cropHeight then
          x ← Image.cropX;
          y ← Image.cropY;
          mret (Some [image; x; y; cropWidth; cropHeight;
                      num 0; num 0; w; h])
        else
          mret (Some [image; num 0; num 0; w; h])
      else mret None) ≫= k) σ
    = k (if truthy image
         then Some (blit_params w h image cw ch x y) else None) σ.
Proof.
  intros A k. unfold blit_params. destruct (truthy image); [|done].
  apply bind_run. rewrite (bind_run _ _ _ _ _ Hcw), (bind_run _ _ _ _ _ Hch).
  destruct (truthy cw && truthy ch); [|done].
  by rewrite (bind_run _ _ _ _ _ Hx), (bind_run _ _ _ _ _ Hy).
Qed.

Lemma sceneFunc_run :
  let n := this_node σ in
  let o := Image._sceneFunc σ in
  completes o = true
  ∧ this_node (final o) = n ∧ platform (final o) = platform σ
  ∧ fired (final o) = fired σ
  ∧ blit_raises (context (final o)) = blit_raises (context σ)
  ∧ issued σ o =
      (if hasFill n || hasStroke n then background n w h else [])
      ++ (if truthy image
          then [DrawImage (blit_params w h image cw ch x y)] else []).
Proof.
  intros n o. subst n o. unfold Image._sceneFunc.
  rewrite (bind_run _ _ _ _ _ Hw), (bind_run _ _ _ _ _ Hh),
    (bind_run _ _ _ _ _ Himage), sceneFunc_params.
  rewrite (bind_run _ _ _ _ _ (paint_run σ)). cbn [truthy].
  destruct (hasFill (this_node σ) || hasStroke (this_node σ)).
  - rewrite (bind_run _ _ _ _ _ (background_run w h σ)).
    destruct (truthy image); cbn [default id].
    + rewrite blit_run, set_trace_twice.
      by rewrite issued_set_trace.
    + unfold mret, M_ret. rewrite issued_set_trace. by rewrite app_nil_r.
  - rewrite ret_bind.
    destruct (truthy image); cbn [default id].
    + rewrite blit_run. by rewrite issued_set_trace.
    + unfold mret, M_ret. unfold issued. cbn. by rewrite drop_all.
Qed.
End Scene.

(** The getters finish in the state they started from, so knowing the value
    is knowing the whole outcome. *)
Lemma width_result σ w :
  result (Image.width σ) = Some w → Image.width σ = Normal w σ.
Proof. unfold Image.width. rewrite getWidth_run. cbn. by intros [= <-]. Qed.

Lemma height_result σ h :
  result (Image.height σ) = Some h → Image.height σ = Normal h σ.
Proof. unfold Image.height. rewrite getHeight_run. cbn. by intros [= <-]. Qed.

Lemma getter_result name def σ v :
  result (Factory.getter name def σ) = Some v →
  Factory.getter name def σ = Normal v σ.
Proof. rewrite getter_run. cbn. by intros [= <-]. Qed.

Lemma hitFunc_run (σ : State) (w h : JsVal) :
  Image.width σ = Normal w σ → Image.height σ = Normal h σ →
  Image._hitFunc σ
  = Normal () (set_trace (λ t, t ++ background (this_node σ) w h) σ).
Proof.
  intros Hw Hh. unfold Image._hitFunc.
  rewrite (bind_run _ _ _ _ _ Hw), (bind_run _ _ _ _ _ Hh).
  apply background_run.
Qed.

(** C2 (as the code has it): with an image source present the scene paint
    issues exactly one [drawImage] call.  When [cropWidth] and [cropHeight]
    are both truthy (for numbers: neither 0 nor NaN) it has the nine
    arguments image, source rectangle (cropX, cropY, cropWidth,
    cropHeight), destination rectangle (0, 0, width, height); when either
    is falsy (0, which is the default, or NaN) it has the five arguments
    image, 0, 0, width, height. *)
Theorem sceneFunc_one_drawImage `{ShapeBase} (σ : State)
    (w h image x y cw ch : JsVal) :
  result (Image.image σ) = Some image → truthy image = true →
  result (Image.width σ) = Some w → result (Image.height σ) = Some h →
  result (Image.cropX σ) = Some x → result (Image.cropY σ) = Some y →
  result (Image.cropWidth σ) = Some cw →
  result (Image.cropHeight σ) = Some ch →
  let blits := List.filter is_drawImage (issued σ (Image._sceneFunc σ)) in
  length blits = 1%nat
  ∧ (truthy cw = true ∧ truthy ch = true →
     blits = [DrawImage [image; x; y; cw; ch; num 0; num 0; w; h]])
  ∧ (truthy cw = false ∨ truthy ch = false →
     blits = [DrawImage [image; num 0; num 0; w; h]])
  ∧ (∀ qw qh : Qc, cw = VNum qw → ch = VNum qh →
       qw ≠ 0%Qc → qh ≠ 0%Qc →
       blits = [DrawImage [image; x; y; cw; ch; num 0; num 0; w; h]])
  ∧ (cw = num 0 ∨ ch = num 0 ∨ cw = VNaN ∨ ch = VNaN →
     blits = [DrawImage [image; num 0; num 0; w; h]]).
Proof.
  intros Himage Htruthy Hw Hh Hx Hy Hcw Hch blits.
  apply getter_result in Himage, Hx, Hy, Hcw, Hch.
  apply width_result in Hw. apply height_result in Hh.
  destruct (sceneFunc_run σ w h image cw ch x y
              Hw Hh Himage Hcw Hch Hx Hy) as (_ & _ & _ & _ & _ & Hissued).
  assert (Hblits : blits = [DrawImage (blit_params w h image cw ch x y)]).
  { subst blits. rewrite Hissued, Htruthy, List.filter_app.
    by destruct (hasFill _ || hasStroke _). }
  rewrite Hblits. split; [done|]. unfold blit_params.
  split; [|split; [|split]].
  - by intros [-> ->].
  - intros [-> | ->]; [done|]. by rewrite andb_false_r.
  - intros qw qh -> -> Hqw Hqh. by rewrite !truthy_num_nonzero.
  - intros [-> | [-> | [-> | ->]]]; try done; by rewrite andb_false_r.
Qed.

Lemma sceneFunc_one_drawImage_witness :
  List.filter is_drawImage
    (issued Fixtures.cropped
       (@Image._sceneFunc Fixtures.opaque_shadowed Fixtures.cropped))
  = [DrawImage [VRef 1; num 2; num 3; num 10; num 10;
                num 0; num 0; num 50; num 50]].
Proof.
  refine (proj1 (proj2 (@sceneFunc_one_drawImage Fixtures.opaque_shadowed
    Fixtures.cropped
    (num 50) (num 50) (VRef 1) (num 2) (num 3) (num 10) (num 10)
    _ _ _ _ _ _ _ _)) _); try reflexivity.
  split; reflexivity.
Defined.

(** C2 (as stated) fails at NaN: with a crop width of NaN and a crop height
    of 10, both of them different from zero, the scene paint issues the
    five-argument call and not the nine-argument one. *)
Lemma sceneFunc_nan_crop_full_source :
  result (Image.cropWidth Fixtures.cropped_nan_width) = Some VNaN
  ∧ VNaN ≠ num 0
  ∧ result (Image.cropHeight Fixtures.cropped_nan_width) = Some (num 10)
  ∧ num 10 ≠ num 0
  ∧ List.filter is_drawImage
      (issued Fixtures.cropped_nan_width
         (@Image._sceneFunc Fixtures.opaque_shadowed
            Fixtures.cropped_nan_width))
    = [DrawImage [VRef 1; num 0; num 0; num 50; num 50]]
  ∧ List.filter is_drawImage
      (issued Fixtures.cropped_nan_width
         (@Image._sceneFunc Fixtures.opaque_shadowed
            Fixtures.cropped_nan_width))
    ≠ [DrawImage [VRef 1; num 2; num 3; VNaN; num 10;
                  num 0; num 0; num 50; num 50]].
Proof.
  split; [reflexivity|]. split; [intros [=]|].
  split; [reflexivity|]. split; [intros [=]|].
  split; [reflexivity|]. vm_compute. intros [=].
Qed.

(** Property 5 of the spec, run: without crop dimensions the blit is the
    five-argument form. *)
Example full_source_blit :
  List.filter is_drawImage
    (issued Fixtures.with_image
       (@Image._sceneFunc Fixtures.bare Fixtures.with_image))
  = [DrawImage [VRef 1; num 0; num 0; num 50; num 50]].
Proof. vm_compute. done. Qed.

(** C4: on a surface whose [drawImage] raises, the scene paint still
    finishes normally; and when an image is present the calls it issued are
    the background path (if a fill or a stroke is configured) followed by
    the one failing [drawImage] attempt, so the background was painted
    before the attempt. *)
Theorem sceneFunc_blit_failure_suppressed `{ShapeBase} (σ : State)
    (w h image : JsVal) :
  (∀ params, is_Some (blit_raises (context σ) params)) →
  result (Image.width σ) = Some w → result (Image.height σ) = Some h →
  result (Image.image σ) = Some image →
  let n := this_node σ in
  let o := Image._sceneFunc σ in
  completes o = true
  ∧ (truthy image = true →
     ∃ params,
       is_Some (blit_raises (context σ) params)
       ∧ issued σ o =
           (if hasFill n || hasStroke n then background n w h else [])
           ++ [DrawImage params]).
Proof.
  intros Hraises Hw Hh Himage n o.
  apply getter_result in Himage.
  apply width_result in Hw. apply height_result in Hh.
  destruct (sceneFunc_run σ w h image _ _ _ _ Hw Hh Himage
              (getter_run _ _ σ) (getter_run _ _ σ)
              (getter_run _ _ σ) (getter_run _ _ σ))
    as (Hcompletes & _ & _ & _ & _ & Hissued).
  split; [done|]. intros Htruthy. rewrite Htruthy in Hissued.
  eexists. split; [apply Hraises|]. exact Hissued.
Qed.

Lemma sceneFunc_blit_failure_suppressed_witness :
  completes (@Image._sceneFunc Fixtures.opaque_shadowed
               Fixtures.with_image_not_ready) = true
  ∧ ∃ params,
      is_Some (blit_raises (context Fixtures.with_image_not_ready) params)
      ∧ issued Fixtures.with_image_not_ready
          (@Image._sceneFunc Fixtures.opaque_shadowed
             Fixtures.with_image_not_ready)
        = background (this_node Fixtures.with_image_not_ready)
            (num 50) (num 50) ++ [DrawImage params].
Proof.
  destruct (@sceneFunc_blit_failure_suppressed Fixtures.opaque_shadowed
              Fixtures.with_image_not_ready
              (num 50) (num 50) (VRef 1)) as [Hcompletes Hissued];
    [by eexists | reflexivity | reflexivity | reflexivity |].
  split; [exact Hcompletes|]. by apply Hissued.
Defined.

(** The guard is the [try]: the same call outside it would propagate. *)
Example unguarded_blit_throws :
  completes (ctx (DrawImage [VRef 1]) Fixtures.with_image_not_ready) = false.
Proof. reflexivity. Qed.

(** C5: with no [image] attribute the scene paint issues no [drawImage]
    call; with neither fill nor stroke it issues no call at all, otherwise
    exactly the background path over (0, 0, width, height). *)
Theorem sceneFunc_without_image `{ShapeBase} (σ : State) (w h : JsVal) :
  attrs (this_node σ) !! "image" = None →
  result (Image.width σ) = Some w → result (Image.height σ) = Some h →
  let n := this_node σ in
  let calls := issued σ (Image._sceneFunc σ) in
  calls = (if hasFill n || hasStroke n then background n w h else [])
  ∧ List.filter is_drawImage calls = []
  ∧ (hasFill n = false → hasStroke n = false → calls = []).
Proof.
  intros Hnone Hw Hh n calls.
  apply width_result in Hw. apply height_result in Hh.
  assert (Himage : Image.image σ = Normal VUndefined σ).
  { rewrite image_run. unfold obj_get. by rewrite Hnone. }
  destruct (sceneFunc_run σ w h VUndefined _ _ _ _ Hw Hh Himage
              (getter_run _ _ σ) (getter_run _ _ σ)
              (getter_run _ _ σ) (getter_run _ _ σ))
    as (_ & _ & _ & _ & _ & Hissued).
  cbn [truthy] in Hissued. rewrite app_nil_r in Hissued.
  subst calls n. rewrite Hissued. split; [done|]. split.
  - by destruct (hasFill _ || hasStroke _).
  - by intros -> ->.
Qed.

Lemma sceneFunc_without_image_witness :
  issued Fixtures.empty_node
    (@Image._sceneFunc Fixtures.bare Fixtures.empty_node) = []
  ∧ issued Fixtures.empty_node
      (@Image._sceneFunc Fixtures.opaque_shadowed Fixtures.empty_node)
    = background (this_node Fixtures.empty_node) (num 0) (num 0).
Proof.
  split.
  - refine (proj2 (proj2 (@sceneFunc_without_image Fixtures.bare
      Fixtures.empty_node (num 0) (num 0) _ _ _)) _ _); reflexivity.
  - refine (proj1 (@sceneFunc_without_image Fixtures.opaque_shadowed
      Fixtures.empty_node (num 0) (num 0) _ _ _)); reflexivity.
Defined.

(** ** Hit paint *)

Lemma crop_attrs_apart (k : string) :
  k ∈ crop_attrs → k ≠ "width" ∧ k ≠ "height" ∧ k ≠ "image".
Proof.
  unfold crop_attrs. rewrite !elem_of_cons, elem_of_nil.
  by intros [->|[->|[->|[->|[]]]]].
Qed.

(** C6: the hit paint issues the path [beginPath], [rect(0, 0, width,
    height)], [closePath] and then [fillStrokeShape(this)]: one rectangle,
    no [drawImage].  No branch looks at the image, crop or shadow; in
    particular storing any value in a crop attribute leaves the rectangle
    the same. *)
Theorem hitFunc_rectangle_only (σ : State) (w h : JsVal) :
  result (Image.width σ) = Some w → result (Image.height σ) = Some h →
  let o := Image._hitFunc σ in
  completes o = true
  ∧ issued σ o = [BeginPath; Rect (num 0) (num 0) w h; ClosePath;
                  FillStrokeShape (this_node σ)]
  ∧ List.filter is_drawImage (issued σ o) = []
  ∧ List.filter is_rect (issued σ o) = [Rect (num 0) (num 0) w h]
  ∧ (∀ k v, k ∈ crop_attrs →
       let σ' := set_attrs <[k := v]> σ in
       List.filter is_rect (issued σ' (Image._hitFunc σ'))
       = [Rect (num 0) (num 0) w h]).
Proof.
  intros Hw Hh o.
  apply width_result in Hw. apply height_result in Hh.
  subst o. rewrite (hitFunc_run σ w h Hw Hh). rewrite issued_set_trace.
  do 4 (split; [done|]).
  intros k v Hk σ'.
  destruct (crop_attrs_apart k Hk) as (Hkw & Hkh & Hki).
  assert (Hw' : Image.width σ' = Normal w σ').
  { unfold Image.width in *. rewrite getWidth_run in *. subst σ'. cbn in *.
    unfold obj_get in *. rewrite !lookup_insert_ne by done. by inversion Hw. }
  assert (Hh' : Image.height σ' = Normal h σ').
  { unfold Image.height in *. rewrite getHeight_run in *. subst σ'. cbn in *.
    unfold obj_get in *. rewrite !lookup_insert_ne by done. by inversion Hh. }
  rewrite (hitFunc_run σ' w h Hw' Hh'). by rewrite issued_set_trace.
Qed.

Lemma hitFunc_rectangle_only_witness :
  issued Fixtures.cropped (Image._hitFunc Fixtures.cropped)
  = [BeginPath; Rect (num 0) (num 0) (num 50) (num 50); ClosePath;
     FillStrokeShape (this_node Fixtures.cropped)]
  ∧ List.filter is_rect
      (issued (set_attrs <["cropWidth" := num 0]> Fixtures.cropped)
         (Image._hitFunc (set_attrs <["cropWidth" := num 0]> Fixtures.cropped)))
    = [Rect (num 0) (num 0) (num 50) (num 50)].
Proof.
  destruct (hitFunc_rectangle_only Fixtures.cropped (num 50) (num 50))
    as (_ & Hissued & _ & _ & Hcrop); [reflexivity | reflexivity |].
  split; [exact Hissued|].
  apply (Hcrop "cropWidth" (num 0)). unfold crop_attrs.
  do 2 apply list_elem_of_further. apply list_elem_of_here.
Defined.

(** ** Attribute accessors *)

Lemma getter_after_store name def (q : Qc) σ :
  result ((Factory.setter name (Some getNumberValidator) (VNum q);;
           Factory.getter name def) σ) = Some (VNum q).
Proof.
  rewrite (bind_run _ _ _ _ _ (number_setter_stores name q σ)).
  rewrite getter_run. cbn. unfold obj_get. by rewrite lookup_insert_eq.
Qed.

Lemma getter_default name def σ :
  attrs (this_node σ) !! name = None →
  result (Factory.getter name def σ) = Some def.
Proof. intros Hnone. rewrite getter_run. cbn. unfold obj_get. by rewrite Hnone. Qed.

(** C7 (as the code has it): for every number [v], storing [v] in [cropX],
    [cropY], [cropWidth] or [cropHeight] and reading the attribute back
    gives [v]; for [width] and [height] the same holds when [v] is not 0 or
    the node has no image source; after storing 0, reading [width]
    ([height]) gives the intrinsic width (height) of the image source when
    one is present and 0 when none is, so there the round trip holds
    exactly when there is no image source or its intrinsic dimension is 0;
    and a crop attribute never stored reads as 0. *)
Theorem accessor_round_trip (σ : State) (v : Qc) :
  let image := obj_get (attrs (this_node σ)) "image" in
  result ((Image.setCropX (VNum v);; Image.cropX) σ) = Some (VNum v)
  ∧ result ((Image.setCropY (VNum v);; Image.cropY) σ) = Some (VNum v)
  ∧ result ((Image.setCropWidth (VNum v);; Image.cropWidth) σ)
    = Some (VNum v)
  ∧ result ((Image.setCropHeight (VNum v);; Image.cropHeight) σ)
    = Some (VNum v)
  ∧ (v ≠ 0%Qc ∨ truthy image = false →
     result ((Image.setWidth (VNum v);; Image.width) σ) = Some (VNum v)
     ∧ result ((Image.setHeight (VNum v);; Image.height) σ) = Some (VNum v))
  ∧ result ((Image.setWidth (num 0);; Image.width) σ)
    = Some (if truthy image then property (platform σ) image "width"
            else num 0)
  ∧ result ((Image.setHeight (num 0);; Image.height) σ)
    = Some (if truthy image then property (platform σ) image "height"
            else num 0)
  ∧ (result ((Image.setWidth (num 0);; Image.width) σ) = Some (num 0)
     ↔ truthy image = false ∨ property (platform σ) image "width" = num 0)
  ∧ (result ((Image.setHeight (num 0);; Image.height) σ) = Some (num 0)
     ↔ truthy image = false ∨ property (platform σ) image "height" = num 0)
  ∧ (attrs (this_node σ) !! "cropX" = None →
     result (Image.cropX σ) = Some (num 0))
  ∧ (attrs (this_node σ) !! "cropY" = None →
     result (Image.cropY σ) = Some (num 0))
  ∧ (attrs (this_node σ) !! "cropWidth" = None →
     result (Image.cropWidth σ) = Some (num 0))
  ∧ (attrs (this_node σ) !! "cropHeight" = None →
     result (Image.cropHeight σ) = Some (num 0)).
Proof.
  intros image.
  do 4 (split; [apply getter_after_store|]).
  assert (Hzero_w : result ((Image.setWidth (num 0);; Image.width) σ)
            = Some (if truthy image then property (platform σ) image "width"
                    else num 0)).
  { unfold Image.setWidth, Image.width, num.
    rewrite (bind_run _ _ _ _ _ (number_setter_stores "width" _ σ)).
    rewrite getWidth_run. cbn. unfold obj_get.
    by rewrite !lookup_insert_eq, !lookup_insert_ne. }
  assert (Hzero_h : result ((Image.setHeight (num 0);; Image.height) σ)
            = Some (if truthy image then property (platform σ) image "height"
                    else num 0)).
  { unfold Image.setHeight, Image.height, num.
    rewrite (bind_run _ _ _ _ _ (number_setter_stores "height" _ σ)).
    rewrite getHeight_run. cbn. unfold obj_get.
    by rewrite !lookup_insert_eq, !lookup_insert_ne. }
  split; [|split; [exact Hzero_w|split; [exact Hzero_h|split; [|split]]]].
  - intros Hv.
    unfold Image.setWidth, Image.setHeight, Image.width, Image.height.
    rewrite (bind_run _ _ _ _ _ (number_setter_stores "width" v σ)),
      (bind_run _ _ _ _ _ (number_setter_stores "height" v σ)).
    rewrite getWidth_run, getHeight_run. cbn.
    unfold obj_get. rewrite !lookup_insert_eq, !lookup_insert_ne by done. cbn.
    destruct Hv as [Hv | Himage].
    + by rewrite bool_decide_eq_true_2.
    + subst image. unfold obj_get in Himage. rewrite Himage.
      case_bool_decide as Hq; [done|]. by subst v.
  - rewrite Hzero_w. destruct (truthy image).
    + split; [intros [= ->]; by right | by intros [? | ->]].
    + split; [by left | done].
  - rewrite Hzero_h. destruct (truthy image).
    + split; [intros [= ->]; by right | by intros [? | ->]].
    + split; [by left | done].
  - repeat split; apply getter_default.
Qed.

Lemma accessor_round_trip_witness :
  result ((Image.setWidth (num 80);; Image.width) Fixtures.with_image)
  = Some (num 80)
  ∧ result ((Image.setHeight (num 0);; Image.height) Fixtures.with_image)
    = Some (num 50)
  ∧ result (Image.cropX Fixtures.with_image) = Some (num 0).
Proof.
  destruct (accessor_round_trip Fixtures.with_image (Q2Qc (inject_Z 80)))
    as (_ & _ & _ & _ & Hsize & _ & Hzero & _ & _ & Hdefault & _).
  split; [|split].
  - apply Hsize. left. intros [=].
  - exact Hzero.
  - apply Hdefault. reflexivity.
Defined.

(** C7 (as stated) fails for [width]: on a node whose image source is 50
    wide, [width(0)] followed by [width()] reads 50, not 0. *)
Lemma width_zero_reads_intrinsic :
  result ((Image.setWidth (num 0);; Image.width) Fixtures.with_image)
  = Some (num 50)
  ∧ result ((Image.setWidth (num 0);; Image.width) Fixtures.with_image)
    ≠ Some (num 0).
Proof. split; [reflexivity|]. vm_compute. intros [=]. Qed.

(** ** The composite [crop] *)

(** Any setter of the node type, whether it stores or throws, leaves every
    other attribute, the platform and the context as they were. *)
Lemma set_frame name v σ :
  let σ' := final (Image.set name v σ) in
  (∀ k, k ≠ name → attrs (this_node σ') !! k = attrs (this_node σ) !! k)
  ∧ platform σ' = platform σ ∧ context σ' = context σ.
Proof.
  unfold Image.set.
  repeat (case_decide; [subst name; apply number_setter_frame|]).
  run. repeat split. intros k Hk. by rewrite lookup_insert_ne.
Qed.

Lemma final_bind {A B} (m : M State A) (f : A → M State B) σ :
  final ((m ≫= f) σ)
  = match m σ with
    | Normal a σ' => final (f a σ')
    | Throws _ σ' => σ'
    end.
Proof. unfold mbind, M_bind. by destruct (m σ). Qed.

(** Writing the components of an object touches only the attributes of the
    components the object specifies. *)
Lemma components_write_frame (cs : list string) (o : Obj) (k : string) :
  (∀ c, c ∈ cs → is_Some (o !! c) → k ≠ "crop" +:+ capitalize c) →
  ∀ σ, attrs (this_node
                (final (Factory.components_write Image.set "crop" cs o σ)))
         !! k
       = attrs (this_node σ) !! k.
Proof.
  induction cs as [|c cs IH]; intros Hk σ; [done|].
  cbn [Factory.components_write]. rewrite final_bind.
  assert (Hrest : ∀ c', c' ∈ cs → is_Some (o !! c') →
                        k ≠ "crop" +:+ capitalize c')
    by (intros c' Hc'; apply Hk; by right).
  destruct (o !! c) as [v|] eqn:Hc.
  - pose proof (set_frame ("crop" +:+ capitalize c) v σ) as (Hattrs & _).
    cbn in Hattrs.
    assert (Hne : k ≠ "crop" +:+ capitalize c)
      by (apply Hk; [by left | by rewrite Hc]).
    destruct (Image.set _ v σ) as [[] σ'|e σ']; cbn in Hattrs.
    + rewrite IH by done. by apply Hattrs.
    + by apply Hattrs.
  - unfold mret, M_ret. by apply IH.
Qed.

Lemma setCrop_frame (o : Obj) (k : string) (σ : State) :
  (∀ c, c ∈ crop_components → is_Some (o !! c) →
        k ≠ "crop" +:+ capitalize c) →
  attrs (this_node (final (Image.setCrop o σ))) !! k
  = attrs (this_node σ) !! k.
Proof.
  intros Hk. unfold Image.setCrop, Factory.components_setter, atomically.
  pose proof (components_write_frame crop_components o k Hk σ) as Hw.
  unfold crop_components in Hw.
  by destruct (Factory.components_write _ _ _ _ _).
Qed.

(** A full object of numbers is stored component by component. *)
Lemma setCrop_full_run (x y w h : Qc) (σ : State) :
  Image.setCrop {[ "x" := VNum x; "y" := VNum y;
                   "width" := VNum w; "height" := VNum h ]} σ
  = (Image.setCropX (VNum x);; Image.setCropY (VNum y);;
     Image.setCropWidth (VNum w);; Image.setCropHeight (VNum h)) σ.
Proof.
  unfold Image.setCrop, Factory.components_setter, atomically.
  cbn [Factory.components_write].
  replace (_ !! "x") with (Some (VNum x)) by done.
  replace (_ !! "y") with (Some (VNum y)) by done.
  replace (_ !! "width") with (Some (VNum w)) by done.
  replace (_ !! "height") with (Some (VNum h)) by done.
  change (Image.set ("crop" +:+ capitalize "x")) with Image.setCropX.
  change (Image.set ("crop" +:+ capitalize "y")) with Image.setCropY.
  change (Image.set ("crop" +:+ capitalize "width")) with Image.setCropWidth.
  change (Image.set ("crop" +:+ capitalize "height")) with Image.setCropHeight.
  unfold Image.setCropX, Image.setCropY, Image.setCropWidth,
    Image.setCropHeight.
  by rewrite !(bind_run _ _ _ _ _ (number_setter_stores _ _ _)),
    number_setter_stores.
Qed.

Lemma crop_run (σ : State) (x y w h : JsVal) :
  Image.cropX σ = Normal x σ → Image.cropY σ = Normal y σ →
  Image.cropWidth σ = Normal w σ → Image.cropHeight σ = Normal h σ →
  Image.crop σ
  = Normal {[ "x" := x; "y" := y; "width" := w; "height" := h ]} σ.
Proof.
  intros Hx Hy Hw Hh. unfold Image.crop.
  cbn [Factory.components_getter].
  change (Image.get ("crop" +:+ capitalize "x")) with Image.cropX.
  change (Image.get ("crop" +:+ capitalize "y")) with Image.cropY.
  change (Image.get ("crop" +:+ capitalize "width")) with Image.cropWidth.
  change (Image.get ("crop" +:+ capitalize "height")) with Image.cropHeight.
  unfold mbind, M_bind.
  rewrite Hx, Hy, Hw, Hh. unfold mret, M_ret.
  by rewrite insert_empty.
Qed.

(** C8: storing a full crop object of numbers and reading [crop()] gives
    that object back (for instance x 1, y 2, width 3, height 4); storing
    the partial object with only [x] afterwards makes [cropX] that value
    and leaves [cropY], [cropWidth] and [cropHeight] as they were; and each
    single crop setter leaves every other attribute as it was. *)
Theorem crop_composite (σ : State) (x y w h x' : Qc) :
  let full : Obj := {[ "x" := VNum x; "y" := VNum y;
                       "width" := VNum w; "height" := VNum h ]} in
  let σ1 := final (Image.setCrop full σ) in
  let σ2 := final (Image.setCrop {[ "x" := VNum x' ]} σ1) in
  result ((Image.setCrop full;; Image.crop) σ) = Some full
  ∧ (result (Image.cropX σ2) = Some (VNum x')
     ∧ result (Image.cropY σ2) = Some (VNum y)
     ∧ result (Image.cropWidth σ2) = Some (VNum w)
     ∧ result (Image.cropHeight σ2) = Some (VNum h))
  ∧ (∀ v k,
       (k ≠ "cropX" →
        attrs (this_node (final (Image.setCropX v σ))) !! k
        = attrs (this_node σ) !! k)
       ∧ (k ≠ "cropY" →
          attrs (this_node (final (Image.setCropY v σ))) !! k
          = attrs (this_node σ) !! k)
       ∧ (k ≠ "cropWidth" →
          attrs (this_node (final (Image.setCropWidth v σ))) !! k
          = attrs (this_node σ) !! k)
       ∧ (k ≠ "cropHeight" →
          attrs (this_node (final (Image.setCropHeight v σ))) !! k
          = attrs (this_node σ) !! k)).
Proof.
  intros full σ1 σ2.
  assert (Hσ1 : Image.setCrop full σ = Normal () σ1).
  { subst σ1 full. rewrite setCrop_full_run.
    unfold Image.setCropX, Image.setCropY, Image.setCropWidth,
      Image.setCropHeight.
    by rewrite !(bind_run _ _ _ _ _ (number_setter_stores _ _ _)),
      number_setter_stores. }
  assert (Hattrs : attrs (this_node σ1)
                   = <["cropHeight" := VNum h]> (<["cropWidth" := VNum w]>
                       (<["cropY" := VNum y]> (<["cropX" := VNum x]>
                          (attrs (this_node σ)))))).
  { subst σ1 full. rewrite setCrop_full_run.
    unfold Image.setCropX, Image.setCropY, Image.setCropWidth,
      Image.setCropHeight.
    by rewrite !(bind_run _ _ _ _ _ (number_setter_stores _ _ _)),
      number_setter_stores. }
  assert (Hread : ∀ name (q : Qc),
            attrs (this_node σ1) !! name = Some (VNum q) →
            Factory.getter name (num 0) σ1 = Normal (VNum q) σ1).
  { intros name q Hq. rewrite getter_run. cbn. unfold obj_get. by rewrite Hq. }
  split; [|split].
  - rewrite (bind_run _ _ _ _ _ Hσ1).
    rewrite (crop_run σ1 (VNum x) (VNum y) (VNum w) (VNum h));
      [done|apply Hread; rewrite Hattrs; by simplify_map_eq..].
  - assert (Hσ2 : attrs (this_node σ2)
                  = <["cropX" := VNum x']> (attrs (this_node σ1))).
    { subst σ2. unfold Image.setCrop, Factory.components_setter, atomically.
      cbn [Factory.components_write].
      replace (_ !! "x") with (Some (VNum x')) by done.
      replace (_ !! "y") with (@None JsVal) by done.
      replace (_ !! "width") with (@None JsVal) by done.
      replace (_ !! "height") with (@None JsVal) by done.
      change (Image.set ("crop" +:+ capitalize "x")) with Image.setCropX.
      unfold Image.setCropX.
      by rewrite (bind_run _ _ _ _ _ (number_setter_stores _ _ _)). }
    unfold Image.cropX, Image.cropY, Image.cropWidth, Image.cropHeight.
    rewrite !getter_run. cbn. unfold obj_get. rewrite Hσ2, Hattrs.
    by simplify_map_eq.
  - intros v k. repeat split; intros Hk;
      by apply (number_setter_frame _ v σ).
Qed.

Lemma crop_composite_witness :
  result ((Image.setCrop {[ "x" := num 1; "y" := num 2;
                            "width" := num 3; "height" := num 4 ]};;
           Image.crop) Fixtures.with_image)
  = Some {[ "x" := num 1; "y" := num 2; "width" := num 3; "height" := num 4 ]}
  ∧ attrs (this_node (final (Image.setCropX (num 9) Fixtures.with_image)))
    !! "cropY"
    = attrs (this_node Fixtures.with_image) !! "cropY".
Proof.
  destruct (crop_composite Fixtures.with_image
              (Q2Qc (inject_Z 1)) (Q2Qc (inject_Z 2))
              (Q2Qc (inject_Z 3)) (Q2Qc (inject_Z 4)) (Q2Qc (inject_Z 9)))
    as (Hfull & _ & Hframe).
  split; [exact Hfull|].
  destruct (Hframe (num 9) "cropY") as [HcropX _]. by apply HcropX.
Defined.

(** Property 2 of the spec, run on a fresh node. *)
Example crop_then_partial_crop :
  let full : Obj := {[ "x" := num 1; "y" := num 2;
                       "width" := num 3; "height" := num 4 ]} in
  result ((Image.setCrop full;; Image.setCrop {[ "x" := num 9 ]};;
           Image.crop) Fixtures.empty_node)
  = Some {[ "x" := num 9; "y" := num 2; "width" := num 3; "height" := num 4 ]}.
Proof. vm_compute. done. Qed.

(** A rejected component leaves the whole node as it was. *)
Example crop_rejected_atomically :
  let bad : Obj := {[ "x" := num 1; "y" := VStr "two" ]} in
  completes (Image.setCrop bad Fixtures.empty_node) = false
  ∧ this_node (final (Image.setCrop bad Fixtures.empty_node))
    = this_node Fixtures.empty_node.
Proof. vm_compute. done. Qed.

(** ** Loading from a URL *)

Lemma logged_app {A} (p : Platform) (o : Outcome Platform A) (es : list PEvent) :
  plog (final o) = plog p ++ es → logged p o = es.
Proof. intros E. unfold logged. by rewrite E, drop_app_length. Qed.

(** The platform as [fromURL] leaves it. *)
Lemma fromURL_run (p : Platform) (url : JsVal) (callback : Fn) :
  let img := fresh (dom (heap p)) in
  Image.fromURL url callback p
  = Normal ()
      (mkPlatform
         (<[img := {[ "src" := url;
                      "crossOrigin" := VStr "Anonymous";
                      "onload" := VFun (FromURL_onload img callback) ]}]>
            (heap p))
         (plog p ++ [PropSet img "onload" (VFun (FromURL_onload img callback));
                     PropSet img "crossOrigin" (VStr "Anonymous");
                     PropSet img "src" url])).
Proof.
  intros img. unfold Image.fromURL, Util.createImageElement, assign.
  unfold modify, mbind, M_bind. cbn. fold img.
  rewrite !alter_insert_eq, <- !app_assoc. cbn.
  by rewrite insert_empty.
Qed.

(** C9: [fromURL] creates a new element and assigns, in this order, its
    [onload] handler, [crossOrigin = 'Anonymous'] and then [src = url];
    no [onerror] is installed.  When the platform then delivers [load] to
    the element, the handler calls [callback] once, with a new Image node
    whose [image] attribute is the element; when it delivers [error],
    nothing is called. *)
Theorem fromURL_contract (p : Platform) (url : JsVal) (callback : nat) :
  let img := fresh (dom (heap p)) in
  let o := Image.fromURL url (Host callback) p in
  let p' := final o in
  completes o = true
  ∧ heap p !! img = None
  ∧ logged p o
    = [PropSet img "onload" (VFun (FromURL_onload img (Host callback)));
       PropSet img "crossOrigin" (VStr "Anonymous");
       PropSet img "src" url]
  ∧ property p' (VRef img) "crossOrigin" = VStr "Anonymous"
  ∧ property p' (VRef img) "src" = url
  ∧ property p' (VRef img) "onerror" = VUndefined
  ∧ logged p' (dispatch img "load" p')
    = [Invoke callback (ANode (Image.new {[ "image" := VRef img ]}))]
  ∧ logged p' (dispatch img "error" p') = [].
Proof.
  intros img o p'. subst o p'. rewrite fromURL_run. fold img. cbn [final completes].
  split; [done|]. split; [apply not_elem_of_dom, is_fresh|].
  split; [by apply logged_app|].
  unfold dispatch, property. cbn [heap].
  rewrite !lookup_insert_eq. cbn [default id].
  do 3 (split; [done|]).
  change (obj_get _ ("on" +:+ "error")) with VUndefined.
  change (obj_get _ ("on" +:+ "load"))
    with (VFun (FromURL_onload img (Host callback))).
  cbn [Image.call]. unfold modify. cbn [heap plog].
  split; [by apply logged_app|].
  unfold logged. cbn. by rewrite drop_all.
Qed.

(** Run on an empty platform: the element is object 0, the callback gets
    the node once. *)
Example fromURL_then_load :
  plog (final ((Image.fromURL (VStr "/a.png") (Host 3);; dispatch 0 "load")
                 (mkPlatform ∅ [])))
  = [PropSet 0 "onload" (VFun (FromURL_onload 0 (Host 3)));
     PropSet 0 "crossOrigin" (VStr "Anonymous");
     PropSet 0 "src" (VStr "/a.png");
     Invoke 3 (ANode (Image.new {[ "image" := VRef 0 ]}))].
Proof. vm_compute. done. Qed.

(** ** Frame: the paint functions and queries only read the node *)

Lemma useBufferCanvas_final `{ShapeBase} (σ : State) :
  final (Image._useBufferCanvas σ) = σ.
Proof.
  run. destruct (hasShadow (this_node σ)); cbn.
  - by destruct (hasStroke (this_node σ)).
  - destruct (bool_decide _); cbn; [|done].
    by destruct (hasStroke (this_node σ)).
Qed.

(** C10: [_sceneFunc], [_hitFunc], [_useBufferCanvas], [getWidth] and
    [getHeight] leave the node as it was: the attribute bag after each of
    them is the attribute bag before, on every surface, also one whose
    [drawImage] raises.  The paint functions change the surface only; the
    three queries change nothing at all. *)
Theorem paint_and_queries_read_only `{ShapeBase} (σ : State) :
  (attrs (this_node (final (Image._sceneFunc σ))) = attrs (this_node σ)
   ∧ platform (final (Image._sceneFunc σ)) = platform σ
   ∧ fired (final (Image._sceneFunc σ)) = fired σ)
  ∧ (attrs (this_node (final (Image._hitFunc σ))) = attrs (this_node σ)
     ∧ platform (final (Image._hitFunc σ)) = platform σ
     ∧ fired (final (Image._hitFunc σ)) = fired σ)
  ∧ final (Image._useBufferCanvas σ) = σ
  ∧ final (Image.getWidth σ) = σ
  ∧ final (Image.getHeight σ) = σ.
Proof.
  split; [|split; [|split; [|split]]].
  - destruct (sceneFunc_run σ _ _ _ _ _ _ _
                (getWidth_run σ) (getHeight_run σ) (image_run σ)
                (getter_run _ _ σ) (getter_run _ _ σ)
                (getter_run _ _ σ) (getter_run _ _ σ))
      as (_ & Hnode & Hplatform & Hfired & _).
    by rewrite Hnode.
  - by rewrite (hitFunc_run σ _ _ (getWidth_run σ) (getHeight_run σ)).
  - apply useBufferCanvas_final.
  - by rewrite getWidth_run.
  - by rewrite getHeight_run.
Qed.

(** The suppressed failure, run: the surface saw the attempt, the node is
    what it was. *)
Example suppressed_blit_leaves_node :
  let σ := Fixtures.with_image_not_ready in
  let o := @Image._sceneFunc Fixtures.bare σ in
  completes o = true
  ∧ issued σ o = [DrawImage [VRef 1; num 0; num 0; num 50; num 50]]
  ∧ this_node (final o) = this_node σ.
Proof. vm_compute. done. Qed.

(** The setters of the same monad do write, so the frame above is a fact
    about the five functions and not about the model. *)
Example setter_writes :
  attrs (this_node (final (Image.setCropX (num 5) Fixtures.empty_node)))
  !! "cropX" = Some (num 5).
Proof. reflexivity. Qed.

(** ** Further properties of the paint functions *)

Lemma set_trace_nil (σ : State) : set_trace (λ t, t ++ []) σ = σ.
Proof.
  destruct σ as [n p [t r] f]. unfold set_trace; cbn. by rewrite app_nil_r.
Qed.

(** The whole outcome of the scene paint, not only the calls: the state it
    ends in is the one it started from with the calls appended. *)
Lemma sceneFunc_outcome `{ShapeBase} (σ : State) (w h image cw ch x y : JsVal) :
  Image.width σ = Normal w σ → Image.height σ = Normal h σ →
  Image.image σ = Normal image σ →
  Image.cropWidth σ = Normal cw σ → Image.cropHeight σ = Normal ch σ →
  Image.cropX σ = Normal x σ → Image.cropY σ = Normal y σ →
  Image._sceneFunc σ
  = Normal ()
      (set_trace
         (λ t, t ++ ((if hasFill (this_node σ) || hasStroke (this_node σ)
                      then background (this_node σ) w h else [])
                     ++ (if truthy image
                         then [DrawImage (blit_params w h image cw ch x y)]
                         else []))) σ).
Proof.
  intros Hw Hh Himage Hcw Hch Hx Hy. unfold Image._sceneFunc.
  rewrite (bind_run _ _ _ _ _ Hw), (bind_run _ _ _ _ _ Hh),
    (bind_run _ _ _ _ _ Himage),
    (sceneFunc_params σ w h image cw ch x y Hcw Hch Hx Hy).
  rewrite (bind_run _ _ _ _ _ (paint_run σ)). cbn [truthy].
  destruct (hasFill (this_node σ) || hasStroke (this_node σ)).
  - rewrite (bind_run _ _ _ _ _ (background_run w h σ)).
    destruct (truthy image); cbn [default id].
    + by rewrite blit_run, set_trace_twice.
    + unfold mret, M_ret. by rewrite app_nil_r.
  - rewrite ret_bind.
    destruct (truthy image); cbn [default id].
    + by rewrite blit_run.
    + unfold mret, M_ret. cbn [app]. by rewrite set_trace_nil.
Qed.

(** The values the scene paint reads, gathered: every state has them. *)
Lemma scene_reads (σ : State) :
  ∃ w h image cw ch x y,
    Image.width σ = Normal w σ ∧ Image.height σ = Normal h σ
    ∧ Image.image σ = Normal image σ
    ∧ Image.cropWidth σ = Normal cw σ ∧ Image.cropHeight σ = Normal ch σ
    ∧ Image.cropX σ = Normal x σ ∧ Image.cropY σ = Normal y σ.
Proof.
  do 7 eexists.
  split; [apply getWidth_run|]. split; [apply getHeight_run|].
  split; [apply image_run|]. repeat split; apply getter_run.
Qed.

(** Reading does not look at the surface: a getter returns the same value
    whatever was drawn in between. *)
Lemma width_set_trace f σ w :
  Image.width σ = Normal w σ →
  Image.width (set_trace f σ) = Normal w (set_trace f σ).
Proof.
  unfold Image.width. rewrite !getWidth_run. cbn. by intros [= <-].
Qed.

Lemma height_set_trace f σ h :
  Image.height σ = Normal h σ →
  Image.height (set_trace f σ) = Normal h (set_trace f σ).
Proof.
  unfold Image.height. rewrite !getHeight_run. cbn. by intros [= <-].
Qed.

Lemma getter_set_trace name def f σ v :
  Factory.getter name def σ = Normal v σ →
  Factory.getter name def (set_trace f σ) = Normal v (set_trace f σ).
Proof. rewrite !getter_run. cbn. by intros [= <-]. Qed.

Lemma filter_blit_after_background (b : bool) (n : Node) (w h : JsVal)
    (blit : list Call) :
  List.filter is_drawImage ((if b then background n w h else []) ++ blit)
  = List.filter is_drawImage blit.
Proof. rewrite List.filter_app. by destruct b. Qed.

(** X1: what the scene paint draws under the image is what the hit paint
    draws.  The calls of [_sceneFunc] are, when a fill or a stroke is
    configured, exactly the calls of [_hitFunc] on the same node, followed
    by at most one [drawImage]; without fill and stroke they are the
    [drawImage] alone, while the hit path is still issued by [_hitFunc]. *)
Theorem sceneFunc_background_is_hit_path `{ShapeBase} (σ : State) :
  ∃ blit,
    issued σ (Image._sceneFunc σ)
    = (if hasFill (this_node σ) || hasStroke (this_node σ)
       then issued σ (Image._hitFunc σ) else []) ++ blit
    ∧ List.filter is_drawImage blit = blit
    ∧ (length blit ≤ 1)%nat
    ∧ length (issued σ (Image._hitFunc σ)) = 4%nat.
Proof.
  destruct (scene_reads σ) as (w & h & image & cw & ch & x & y &
    Hw & Hh & Himage & Hcw & Hch & Hx & Hy).
  rewrite (sceneFunc_outcome σ w h image cw ch x y) by done.
  rewrite (hitFunc_run σ w h Hw Hh), !issued_set_trace.
  eexists. split; [done|]. destruct (truthy image); cbn; auto.
Qed.

(** X2: the scene paint issues a [drawImage] call exactly when [image()]
    is truthy: an image attribute holding [null], [false], [0] or the
    empty string is treated like an absent one. *)
Theorem sceneFunc_blits_iff_image `{ShapeBase} (σ : State) (image : JsVal) :
  result (Image.image σ) = Some image →
  List.filter is_drawImage (issued σ (Image._sceneFunc σ)) = []
  ↔ truthy image = false.
Proof.
  intros Himage. apply getter_result in Himage.
  destruct (scene_reads σ) as (w & h & image' & cw & ch & x & y &
    Hw & Hh & Himage' & Hcw & Hch & Hx & Hy).
  assert (image' = image) as ->
    by (unfold Image.image in *; congruence).
  rewrite (sceneFunc_outcome σ w h image cw ch x y) by done.
  rewrite issued_set_trace, filter_blit_after_background.
  by destruct (truthy image).
Qed.

Lemma sceneFunc_blits_iff_image_witness :
  List.filter is_drawImage
    (issued (mkState (Image.new {[ "image" := VNull ]})
               Fixtures.bitmaps Fixtures.ready [])
       (@Image._sceneFunc Fixtures.opaque_shadowed
          (mkState (Image.new {[ "image" := VNull ]})
             Fixtures.bitmaps Fixtures.ready [])))
  = [].
Proof.
  apply (@sceneFunc_blits_iff_image Fixtures.opaque_shadowed
           (mkState (Image.new {[ "image" := VNull ]})
              Fixtures.bitmaps Fixtures.ready []) VNull);
    reflexivity.
Defined.

(** X3: every [drawImage] the scene paint issues has the image as first
    argument and (0, 0, width, height) as its last four, in the
    five-argument and in the nine-argument form alike: the source or its
    crop region is always stretched over the whole node, never clipped or
    placed elsewhere. *)
Theorem sceneFunc_blit_destination `{ShapeBase} (σ : State)
    (w h image : JsVal) (params : list JsVal) :
  result (Image.width σ) = Some w → result (Image.height σ) = Some h →
  result (Image.image σ) = Some image →
  DrawImage params ∈ issued σ (Image._sceneFunc σ) →
  head params = Some image
  ∧ (length params = 5%nat ∨ length params = 9%nat)
  ∧ drop (length params - 4) params = [num 0; num 0; w; h].
Proof.
  intros Hw Hh Himage Hin.
  apply getter_result in Himage.
  apply width_result in Hw. apply height_result in Hh.
  rewrite (sceneFunc_outcome σ w h image _ _ _ _ Hw Hh Himage
             (getter_run _ _ σ) (getter_run _ _ σ)
             (getter_run _ _ σ) (getter_run _ _ σ)) in Hin.
  rewrite issued_set_trace in Hin.
  apply elem_of_app in Hin as [Hbg | Hblit].
  - destruct (hasFill _ || hasStroke _).
    + unfold background in Hbg.
      rewrite !elem_of_cons, elem_of_nil in Hbg.
      by destruct Hbg as [?|[?|[?|[?|[]]]]].
    + by apply elem_of_nil in Hbg.
  - destruct (truthy image); [|by apply elem_of_nil in Hblit].
    apply list_elem_of_singleton in Hblit. injection Hblit as ->.
    unfold blit_params. destruct (_ && _); cbn; auto.
Qed.

Lemma sceneFunc_blit_destination_witness :
  head [VRef 1; num 2; num 3; num 10; num 10; num 0; num 0; num 50; num 50]
  = Some (VRef 1)
  ∧ drop 5 [VRef 1; num 2; num 3; num 10; num 10;
            num 0; num 0; num 50; num 50]
    = [num 0; num 0; num 50; num 50].
Proof.
  assert (Hin : DrawImage [VRef 1; num 2; num 3; num 10; num 10;
                           num 0; num 0; num 50; num 50]
                ∈ issued Fixtures.cropped
                    (@Image._sceneFunc Fixtures.opaque_shadowed
                       Fixtures.cropped)).
  { change (issued Fixtures.cropped
              (@Image._sceneFunc Fixtures.opaque_shadowed Fixtures.cropped))
      with (background (this_node Fixtures.cropped) (num 50) (num 50)
            ++ [DrawImage [VRef 1; num 2; num 3; num 10; num 10;
                           num 0; num 0; num 50; num 50]]).
    apply elem_of_app. right. apply list_elem_of_here. }
  destruct (@sceneFunc_blit_destination Fixtures.opaque_shadowed
              Fixtures.cropped (num 50) (num 50) (VRef 1) _
              eq_refl eq_refl eq_refl Hin) as (Hhead & _ & Hdest).
  split; [exact Hhead | exact Hdest].
Defined.

(** Reading an attribute does not look at the others. *)
Lemma getter_insert_other name def k v σ x :
  k ≠ name → Factory.getter name def σ = Normal x σ →
  Factory.getter name def (set_attrs <[k := v]> σ)
  = Normal x (set_attrs <[k := v]> σ).
Proof.
  intros Hk. rewrite !getter_run. cbn. unfold obj_get.
  rewrite lookup_insert_ne by done. by intros [= <-].
Qed.

Lemma width_insert_other k v σ w :
  k ≠ "width" → k ≠ "image" → Image.width σ = Normal w σ →
  Image.width (set_attrs <[k := v]> σ) = Normal w (set_attrs <[k := v]> σ).
Proof.
  intros Hkw Hki. unfold Image.width. rewrite !getWidth_run. cbn.
  unfold obj_get. rewrite !lookup_insert_ne by done. by intros [= <-].
Qed.

Lemma height_insert_other k v σ h :
  k ≠ "height" → k ≠ "image" → Image.height σ = Normal h σ →
  Image.height (set_attrs <[k := v]> σ) = Normal h (set_attrs <[k := v]> σ).
Proof.
  intros Hkh Hki. unfold Image.height. rewrite !getHeight_run. cbn.
  unfold obj_get. rewrite !lookup_insert_ne by done. by intros [= <-].
Qed.

(** X4: [cropX] and [cropY] count only together with both crop dimensions.
    While [cropWidth()] or [cropHeight()] is falsy (0 by default), putting
    any value in [cropX] or [cropY] leaves the [drawImage] call of the
    scene paint as it was. *)
Theorem sceneFunc_crop_origin_needs_size `{ShapeBase} (σ : State)
    (k : string) (v cw ch : JsVal) :
  k = "cropX" ∨ k = "cropY" →
  result (Image.cropWidth σ) = Some cw →
  result (Image.cropHeight σ) = Some ch →
  truthy cw && truthy ch = false →
  List.filter is_drawImage
    (issued (set_attrs <[k := v]> σ)
       (Image._sceneFunc (set_attrs <[k := v]> σ)))
  = List.filter is_drawImage (issued σ (Image._sceneFunc σ)).
Proof.
  intros Hk Hcw Hch Hsize. apply getter_result in Hcw, Hch.
  assert (Hne : k ≠ "width" ∧ k ≠ "height" ∧ k ≠ "image"
                ∧ k ≠ "cropWidth" ∧ k ≠ "cropHeight")
    by (destruct Hk as [-> | ->]; done).
  destruct Hne as (Hkw & Hkh & Hki & Hkcw & Hkch).
  destruct (scene_reads σ) as (w & h & image & cw0 & ch0 & x & y &
    Hw & Hh & Himage & Hcw0 & Hch0 & Hx & Hy).
  assert (cw0 = cw) as -> by (unfold Image.cropWidth in *; congruence).
  assert (ch0 = ch) as -> by (unfold Image.cropHeight in *; congruence).
  rewrite (sceneFunc_outcome σ w h image cw ch x y) by done.
  rewrite (sceneFunc_outcome (set_attrs <[k := v]> σ) w h image cw ch _ _
             (width_insert_other k v σ w Hkw Hki Hw)
             (height_insert_other k v σ h Hkh Hki Hh)
             (getter_insert_other _ _ k v σ image Hki Himage)
             (getter_insert_other _ _ k v σ cw Hkcw Hcw)
             (getter_insert_other _ _ k v σ ch Hkch Hch)
             (getter_run _ _ _) (getter_run _ _ _)).
  rewrite !issued_set_trace, !filter_blit_after_background.
  unfold blit_params. by rewrite Hsize.
Qed.

Lemma sceneFunc_crop_origin_needs_size_witness :
  List.filter is_drawImage
    (issued (set_attrs <["cropX" := num 7]> Fixtures.with_image)
       (@Image._sceneFunc Fixtures.bare
          (set_attrs <["cropX" := num 7]> Fixtures.with_image)))
  = List.filter is_drawImage
      (issued Fixtures.with_image
         (@Image._sceneFunc Fixtures.bare Fixtures.with_image)).
Proof.
  apply (@sceneFunc_crop_origin_needs_size Fixtures.bare Fixtures.with_image
           "cropX" (num 7) (num 0) (num 0));
    [by left | reflexivity | reflexivity | reflexivity].
Defined.

(** With both dimensions set the origin does count. *)
Example crop_origin_counts_with_size :
  List.filter is_drawImage
    (issued (set_attrs <["cropX" := num 7]> Fixtures.cropped)
       (@Image._sceneFunc Fixtures.bare
          (set_attrs <["cropX" := num 7]> Fixtures.cropped)))
  = [DrawImage [VRef 1; num 7; num 3; num 10; num 10;
                num 0; num 0; num 50; num 50]].
Proof. vm_compute. done. Qed.

(** X5: painting keeps nothing between frames.  Two scene paints in a row
    finish normally and issue the calls of one paint twice, on every
    surface; so after a frame whose [drawImage] failed the next frame makes
    the same attempt again. *)
Theorem sceneFunc_repaint `{ShapeBase} (σ : State) :
  completes ((Image._sceneFunc;; Image._sceneFunc) σ) = true
  ∧ issued σ ((Image._sceneFunc;; Image._sceneFunc) σ)
    = issued σ (Image._sceneFunc σ) ++ issued σ (Image._sceneFunc σ)
  ∧ this_node (final ((Image._sceneFunc;; Image._sceneFunc) σ))
    = this_node σ.
Proof.
  destruct (scene_reads σ) as (w & h & image & cw & ch & x & y &
    Hw & Hh & Himage & Hcw & Hch & Hx & Hy).
  pose proof (sceneFunc_outcome σ w h image cw ch x y
                Hw Hh Himage Hcw Hch Hx Hy) as Hfirst.
  set (calls := _ ++ _) in Hfirst.
  set (σ1 := set_trace (λ t, t ++ calls) σ) in *.
  assert (Hsecond : Image._sceneFunc σ1
                    = Normal () (set_trace (λ t, t ++ calls) σ1)).
  { apply (sceneFunc_outcome σ1 w h image cw ch x y).
    - by apply width_set_trace.
    - by apply height_set_trace.
    - by apply getter_set_trace.
    - by apply getter_set_trace.
    - by apply getter_set_trace.
    - by apply getter_set_trace.
    - by apply getter_set_trace. }
  rewrite (bind_run _ _ _ _ _ Hfirst), Hsecond, Hfirst.
  subst σ1. rewrite set_trace_twice, !issued_set_trace. done.
Qed.

(** ** Further properties of the loader *)

(** Delivering [load] to an element that carries the handler of [fromURL]:
    one call of the callback, the elements untouched. *)
Lemma dispatch_load_run (q : Platform) (img callback : nat) :
  property q (VRef img) "onload"
  = VFun (FromURL_onload img (Host callback)) →
  dispatch img "load" q
  = Normal ()
      (mkPlatform (heap q)
         (plog q ++ [Invoke callback
                       (ANode (Image.new {[ "image" := VRef img ]}))])).
Proof.
  intros Hhandler. unfold dispatch.
  change ("on" +:+ "load") with "onload". by rewrite Hhandler.
Qed.

Lemma deliver_load_run (n : nat) (img callback : nat) :
  ∀ q : Platform,
    property q (VRef img) "onload"
    = VFun (FromURL_onload img (Host callback)) →
    deliver n img "load" q
    = Normal ()
        (mkPlatform (heap q)
           (plog q ++ replicate n
                        (Invoke callback
                           (ANode (Image.new {[ "image" := VRef img ]}))))).
Proof.
  induction n as [|n IH]; intros q Hhandler; cbn [deliver replicate].
  - unfold mret, M_ret. rewrite app_nil_r. by destruct q.
  - rewrite (bind_run _ _ _ _ _ (dispatch_load_run q img callback Hhandler)).
    rewrite IH by done. cbn [heap plog]. by rewrite <- app_assoc.
Qed.

(** X6: calls of [fromURL] do not interfere.  A second call creates an
    element different from the first, leaves every other object of the
    platform as it was, and afterwards [load] on either element reaches
    that element's own callback with a node around that element. *)
Theorem fromURL_twice_independent (p : Platform) (url1 url2 : JsVal)
    (callback1 callback2 : nat) :
  let img1 := fresh (dom (heap p)) in
  let p1 := final (Image.fromURL url1 (Host callback1) p) in
  let img2 := fresh (dom (heap p1)) in
  let p2 := final (Image.fromURL url2 (Host callback2) p1) in
  img1 ≠ img2
  ∧ (∀ l, l ≠ img2 → heap p2 !! l = heap p1 !! l)
  ∧ logged p2 (dispatch img1 "load" p2)
    = [Invoke callback1 (ANode (Image.new {[ "image" := VRef img1 ]}))]
  ∧ logged p2 (dispatch img2 "load" p2)
    = [Invoke callback2 (ANode (Image.new {[ "image" := VRef img2 ]}))].
Proof.
  intros img1 p1 img2 p2.
  assert (Hp1 : heap p1
                = <[img1 := {[ "src" := url1;
                               "crossOrigin" := VStr "Anonymous";
                               "onload" := VFun (FromURL_onload img1
                                                   (Host callback1)) ]}]>
                    (heap p)).
  { subst p1. by rewrite fromURL_run. }
  assert (Hp2 : heap p2
                = <[img2 := {[ "src" := url2;
                               "crossOrigin" := VStr "Anonymous";
                               "onload" := VFun (FromURL_onload img2
                                                   (Host callback2)) ]}]>
                    (heap p1)).
  { subst p2. by rewrite fromURL_run. }
  assert (Hne : img1 ≠ img2).
  { intros Heq. apply (is_fresh (dom (heap p1))). fold img2.
    rewrite <- Heq, Hp1. apply elem_of_dom. rewrite lookup_insert_eq. by eexists. }
  split; [done|]. split.
  - intros l Hl. by rewrite Hp2, lookup_insert_ne.
  - split.
    + rewrite (dispatch_load_run p2 img1 callback1).
      * by apply logged_app.
      * unfold property. rewrite Hp2, lookup_insert_ne by done.
        rewrite Hp1, lookup_insert_eq. done.
    + rewrite (dispatch_load_run p2 img2 callback2).
      * by apply logged_app.
      * unfold property. rewrite Hp2, lookup_insert_eq. done.
Qed.

Lemma fromURL_twice_independent_witness :
  heap LoaderFixtures.two_started !! 0%nat
  = heap LoaderFixtures.one_started !! 0%nat
  ∧ logged LoaderFixtures.two_started
      (dispatch 0 "load" LoaderFixtures.two_started)
    = [Invoke 3 (ANode (Image.new {[ "image" := VRef 0 ]}))]
  ∧ logged LoaderFixtures.two_started
      (dispatch 1 "load" LoaderFixtures.two_started)
    = [Invoke 4 (ANode (Image.new {[ "image" := VRef 1 ]}))].
Proof.
  destruct (fromURL_twice_independent LoaderFixtures.empty_platform
              (VStr "/a.png") (VStr "/b.png") 3 4)
    as (_ & Hframe & Hfirst & Hsecond).
  split; [|split; [exact Hfirst | exact Hsecond]].
  apply Hframe. intros Heq. vm_compute in Heq. discriminate Heq.
Defined.

(** X7: the handler is not one-shot.  [fromURL] never removes [onload], so
    when the platform delivers [load] to the element [n] times the callback
    is called [n] times, each time with a node around the element. *)
Theorem fromURL_load_each_time (p : Platform) (url : JsVal)
    (callback n : nat) :
  let img := fresh (dom (heap p)) in
  let p' := final (Image.fromURL url (Host callback) p) in
  completes (deliver n img "load" p') = true
  ∧ logged p' (deliver n img "load" p')
    = replicate n (Invoke callback
                     (ANode (Image.new {[ "image" := VRef img ]}))).
Proof.
  intros img p'.
  rewrite (deliver_load_run n img callback p').
  - split; [done|]. by apply logged_app.
  - subst p'. rewrite fromURL_run. fold img. unfold property. cbn [final heap].
    by rewrite lookup_insert_eq.
Qed.

(** X8: a node that has only an [image], as the node [fromURL] hands to
    the callback, sizes itself to the source and paints all of it: with no
    stored width, height or crop dimensions, [getWidth] and [getHeight]
    are the intrinsic width and height of the source and the scene paint's
    one [drawImage] is the five-argument form over that size. *)
Theorem unsized_node_paints_full_source `{ShapeBase} (σ : State) (img : nat) :
  attrs (this_node σ) !! "image" = Some (VRef img) →
  attrs (this_node σ) !! "width" = None →
  attrs (this_node σ) !! "height" = None →
  attrs (this_node σ) !! "cropWidth" = None
  ∨ attrs (this_node σ) !! "cropHeight" = None →
  let width := property (platform σ) (VRef img) "width" in
  let height := property (platform σ) (VRef img) "height" in
  result (Image.getWidth σ) = Some width
  ∧ result (Image.getHeight σ) = Some height
  ∧ List.filter is_drawImage (issued σ (Image._sceneFunc σ))
    = [DrawImage [VRef img; num 0; num 0; width; height]].
Proof.
  intros Himage Hwidth Hheight Hcrop width height.
  assert (Hw : Image.width σ = Normal width σ).
  { unfold Image.width. rewrite getWidth_run. cbn. unfold obj_get.
    by rewrite Hwidth, Himage. }
  assert (Hh : Image.height σ = Normal height σ).
  { unfold Image.height. rewrite getHeight_run. cbn. unfold obj_get.
    by rewrite Hheight, Himage. }
  assert (Hi : Image.image σ = Normal (VRef img) σ).
  { rewrite image_run. unfold obj_get. by rewrite Himage. }
  change Image.getWidth with Image.width.
  change Image.getHeight with Image.height.
  split; [by rewrite Hw|]. split; [by rewrite Hh|].
  rewrite (sceneFunc_outcome σ width height (VRef img) _ _ _ _ Hw Hh Hi
             (getter_run _ _ σ) (getter_run _ _ σ)
             (getter_run _ _ σ) (getter_run _ _ σ)).
  rewrite issued_set_trace, filter_blit_after_background.
  cbn [truthy List.filter is_drawImage]. unfold blit_params, obj_get.
  destruct Hcrop as [-> | ->]; cbn; [done|]. by rewrite andb_false_r.
Qed.

Lemma unsized_node_paints_full_source_witness :
  result (Image.getWidth
            (mkState (Image.new {[ "image" := VRef 1 ]})
               Fixtures.bitmaps Fixtures.not_ready []))
  = Some (num 50)
  ∧ List.filter is_drawImage
      (issued (mkState (Image.new {[ "image" := VRef 1 ]})
                 Fixtures.bitmaps Fixtures.not_ready [])
         (@Image._sceneFunc Fixtures.bare
            (mkState (Image.new {[ "image" := VRef 1 ]})
               Fixtures.bitmaps Fixtures.not_ready [])))
    = [DrawImage [VRef 1; num 0; num 0; num 50; num 50]].
Proof.
  destruct (@unsized_node_paints_full_source Fixtures.bare
              (mkState (Image.new {[ "image" := VRef 1 ]})
                 Fixtures.bitmaps Fixtures.not_ready []) 1%nat)
    as (Hwidth & _ & Hblit);
    [reflexivity | reflexivity | reflexivity | by left |].
  split; [exact Hwidth | exact Hblit].
Defined.

(** ** Buffer canvas and scene paint together *)

Lemma useBufferCanvas_truthy_stroke `{ShapeBase} (σ : State) :
  returns_truthy (Image._useBufferCanvas σ) = true →
  hasStroke (this_node σ) = true.
Proof.
  run. destruct (hasShadow (this_node σ)); cbn.
  - by destruct (hasStroke (this_node σ)).
  - destruct (bool_decide _); cbn; [|done].
    by destruct (hasStroke (this_node σ)).
Qed.

(** X9: the buffer canvas is asked for only where a path is stroked.
    Whenever [_useBufferCanvas] answers with a truthy value, the scene
    paint of the same node issues the background path ([beginPath], [rect]
    over the node, [closePath], [fillStrokeShape]) before anything else. *)
Theorem useBufferCanvas_implies_background `{ShapeBase} (σ : State)
    (w h : JsVal) :
  returns_truthy (Image._useBufferCanvas σ) = true →
  result (Image.width σ) = Some w → result (Image.height σ) = Some h →
  take 4 (issued σ (Image._sceneFunc σ)) = background (this_node σ) w h.
Proof.
  intros Hbuffer Hw Hh.
  apply useBufferCanvas_truthy_stroke in Hbuffer.
  apply width_result in Hw. apply height_result in Hh.
  rewrite (sceneFunc_outcome σ w h _ _ _ _ _ Hw Hh (image_run σ)
             (getter_run _ _ σ) (getter_run _ _ σ)
             (getter_run _ _ σ) (getter_run _ _ σ)).
  rewrite issued_set_trace, Hbuffer, orb_true_r. done.
Qed.

Lemma useBufferCanvas_implies_background_witness :
  take 4 (issued Fixtures.with_image
            (@Image._sceneFunc Fixtures.opaque_shadowed Fixtures.with_image))
  = background (this_node Fixtures.with_image) (num 50) (num 50).
Proof.
  apply (@useBufferCanvas_implies_background Fixtures.opaque_shadowed
           Fixtures.with_image (num 50) (num 50)); reflexivity.
Defined.
